(** * Valkary USB Manager: the cross-compilation stubs of the udev API

    A shallow embedding of [src/stubs/udev_stubs.c].  The file defines twelve
    functions of the libudev interface whose bodies discard their arguments
    and return a constant.  Each C function becomes a computation in a small
    state-and-fault monad over the C memory, so that "returns the sentinel",
    "changes nothing" and "never faults" are three separate, provable facts. *)

From Stdlib Require Import ZArith List String Ascii Bool Lia.
From Stdlib.Strings Require Import Byte.
From stdpp Require Import base option gmap.

Import ListNotations.
Local Open Scope Z_scope.

(* ===================================================================== *)
(** ** The C data model *)
(* ===================================================================== *)

Module CModel.

(** A pointer is the null pointer or an offset into an allocated block.
    [udev], [udev_monitor] and [udev_device] are incomplete struct types in
    this translation unit: a handle is just a [ptr]. *)
Inductive ptr : Type :=
| NULL
| Ptr (blk : Z) (ofs : Z).

(** [int] is 32 bits wide, two's complement. *)
Definition INT_MIN : Z := - 2 ^ 31.
Definition INT_MAX : Z := 2 ^ 31 - 1.
Definition int_range (i : Z) : bool := (INT_MIN <=? i) && (i <=? INT_MAX).

(** What a call hands back to its caller. *)
Inductive value : Type :=
| VPtr (p : ptr)
| VInt (i : Z)
| VVoid.

(** The translation unit declares no global and calls no function, so the
    only state a stub could read or write is the memory reachable through
    the pointers it is given: a finite map from block identifiers to the
    bytes of the block.  A block that is absent has been released (or was
    never allocated). *)
Record world : Type := World { mem : gmap Z (list byte) }.

(** Running a piece of C either completes with a result and a new world, or
    faults (null or dangling dereference, read past the end of a block). *)
Inductive outcome (A : Type) : Type :=
| Done (a : A) (w : world)
| Fault.
Arguments Done {A} a w.
Arguments Fault {A}.

Definition M (A : Type) : Type := world -> outcome A.

Definition ret {A : Type} (a : A) : M A := fun w => Done a w.

Definition bind {A B : Type} (m : M A) (k : A -> M B) : M B :=
  fun w => match m w with
           | Done a w' => k a w'
           | Fault => Fault
           end.

(** [(void)e;] evaluates the parameter [e] (a local, not a memory access)
    and throws the value away. *)
Definition discard {A : Type} (e : A) : M unit := ret tt.

(** The result and the final state of a run, when there is one. *)
Definition result_of {A : Type} (o : outcome A) : option A :=
  match o with Done a _ => Some a | Fault => None end.

Definition state_of {A : Type} (o : outcome A) : option world :=
  match o with Done _ w => Some w | Fault => None end.

Definition faults {A : Type} (o : outcome A) : bool :=
  match o with Done _ _ => false | Fault => true end.

(** The bytes a pointer designates: from its offset to the end of its
    block.  This is the one place where memory is dereferenced. *)
Definition deref (p : ptr) (w : world) : option (list byte) :=
  match p with
  | NULL => None
  | Ptr b ofs =>
      match mem w !! b with
      | None => None
      | Some bs =>
          if (0 <=? ofs) && (ofs <? Z.of_nat (length bs))
          then Some (drop (Z.to_nat ofs) bs)
          else None
      end
  end.

(** [*p] for a [const char *p]. *)
Definition load_byte (p : ptr) : M byte :=
  fun w => match deref p w with
           | Some (b :: _) => Done b w
           | _ => Fault
           end.

(** The bytes in front of the first NUL; [None] when the block ends before
    a NUL is met. *)
Fixpoint until_nul (bs : list byte) : option (list byte) :=
  match bs with
  | [] => None
  | b :: bs' =>
      if Byte.eqb b x00 then Some []
      else match until_nul bs' with
           | Some s => Some (b :: s)
           | None => None
           end
  end.

Definition nul_free (bs : list byte) : bool :=
  forallb (fun b => negb (Byte.eqb b x00)) bs.

(** Reading the NUL-terminated string a [const char *] points to. *)
Definition load_cstr (p : ptr) : M string :=
  fun w => match deref p w with
           | Some bs =>
               match until_nul bs with
               | Some s => Done (string_of_list_byte s) w
               | None => Fault
               end
           | None => Fault
           end.

(** A world in which block [b] holds the C string [s]. *)
Definition with_cstr (b : Z) (s : string) (w : world) : world :=
  World (<[ b := list_byte_of_string s ++ [x00] ]> (mem w)).

(** A world in which block [b] has been released. *)
Definition release (b : Z) (w : world) : world :=
  World (delete b (mem w)).

Definition empty_world : world := World ∅.

End CModel.

Export CModel.

Declare Scope c_scope.
Delimit Scope c_scope with C.
Notation "x <- m ;; k" := (bind m (fun x => k))
  (at level 100, m at next level, right associativity) : c_scope.
Notation "m ;; k" := (bind m (fun _ => k))
  (at level 100, right associativity) : c_scope.
Local Open Scope c_scope.

(* ===================================================================== *)
(** ** The stubs, function by function (udev_stubs.c, lines 13-71) *)
(* ===================================================================== *)

Module Stubs.

Definition udev_new : M ptr :=
  ret NULL.

Definition udev_unref (udev : ptr) : M unit :=
  discard udev.

Definition udev_monitor_new_from_netlink (udev : ptr) (name : ptr) : M ptr :=
  discard udev ;;
  discard name ;;
  ret NULL.

Definition udev_monitor_filter_add_match_subsystem_devtype
    (udev_monitor : ptr) (subsystem : ptr) (devtype : ptr) : M Z :=
  discard udev_monitor ;;
  discard subsystem ;;
  discard devtype ;;
  ret (-1).

Definition udev_monitor_enable_receiving (udev_monitor : ptr) : M Z :=
  discard udev_monitor ;;
  ret (-1).

Definition udev_monitor_get_fd (udev_monitor : ptr) : M Z :=
  discard udev_monitor ;;
  ret (-1).

Definition udev_monitor_unref (udev_monitor : ptr) : M unit :=
  discard udev_monitor.

Definition udev_monitor_receive_device (udev_monitor : ptr) : M ptr :=
  discard udev_monitor ;;
  ret NULL.

Definition udev_device_get_action (udev_device : ptr) : M ptr :=
  discard udev_device ;;
  ret NULL.

Definition udev_device_get_devnode (udev_device : ptr) : M ptr :=
  discard udev_device ;;
  ret NULL.

Definition udev_device_get_sysattr_value
    (udev_device : ptr) (sysattr : ptr) : M ptr :=
  discard udev_device ;;
  discard sysattr ;;
  ret NULL.

Definition udev_device_unref (udev_device : ptr) : M unit :=
  discard udev_device.

End Stubs.

Export Stubs.

(* ===================================================================== *)
(** ** The interface as a caller sees it: calls, histories, results *)
(* ===================================================================== *)

Module Api.

(** The twelve entry points. *)
Inductive fname : Type :=
| F_udev_new
| F_udev_unref
| F_udev_monitor_new_from_netlink
| F_udev_monitor_filter_add_match_subsystem_devtype
| F_udev_monitor_enable_receiving
| F_udev_monitor_get_fd
| F_udev_monitor_unref
| F_udev_monitor_receive_device
| F_udev_device_get_action
| F_udev_device_get_devnode
| F_udev_device_get_sysattr_value
| F_udev_device_unref.

(** Return types, as the signatures give them. *)
Inductive ctype : Type := TPtr | TInt | TVoid.

Definition ret_type (f : fname) : ctype :=
  match f with
  | F_udev_new => TPtr
  | F_udev_unref => TVoid
  | F_udev_monitor_new_from_netlink => TPtr
  | F_udev_monitor_filter_add_match_subsystem_devtype => TInt
  | F_udev_monitor_enable_receiving => TInt
  | F_udev_monitor_get_fd => TInt
  | F_udev_monitor_unref => TVoid
  | F_udev_monitor_receive_device => TPtr
  | F_udev_device_get_action => TPtr
  | F_udev_device_get_devnode => TPtr
  | F_udev_device_get_sysattr_value => TPtr
  | F_udev_device_unref => TVoid
  end.

(** One call: a function together with its actual arguments. *)
Inductive call : Type :=
| Udev_new
| Udev_unref (udev : ptr)
| Udev_monitor_new_from_netlink (udev name : ptr)
| Udev_monitor_filter_add_match_subsystem_devtype
    (udev_monitor subsystem devtype : ptr)
| Udev_monitor_enable_receiving (udev_monitor : ptr)
| Udev_monitor_get_fd (udev_monitor : ptr)
| Udev_monitor_unref (udev_monitor : ptr)
| Udev_monitor_receive_device (udev_monitor : ptr)
| Udev_device_get_action (udev_device : ptr)
| Udev_device_get_devnode (udev_device : ptr)
| Udev_device_get_sysattr_value (udev_device sysattr : ptr)
| Udev_device_unref (udev_device : ptr).

Definition fn_of (c : call) : fname :=
  match c with
  | Udev_new => F_udev_new
  | Udev_unref _ => F_udev_unref
  | Udev_monitor_new_from_netlink _ _ => F_udev_monitor_new_from_netlink
  | Udev_monitor_filter_add_match_subsystem_devtype _ _ _ =>
      F_udev_monitor_filter_add_match_subsystem_devtype
  | Udev_monitor_enable_receiving _ => F_udev_monitor_enable_receiving
  | Udev_monitor_get_fd _ => F_udev_monitor_get_fd
  | Udev_monitor_unref _ => F_udev_monitor_unref
  | Udev_monitor_receive_device _ => F_udev_monitor_receive_device
  | Udev_device_get_action _ => F_udev_device_get_action
  | Udev_device_get_devnode _ => F_udev_device_get_devnode
  | Udev_device_get_sysattr_value _ _ => F_udev_device_get_sysattr_value
  | Udev_device_unref _ => F_udev_device_unref
  end.

Definition args_of (c : call) : list ptr :=
  match c with
  | Udev_new => []
  | Udev_unref u => [u]
  | Udev_monitor_new_from_netlink u n => [u; n]
  | Udev_monitor_filter_add_match_subsystem_devtype m s d => [m; s; d]
  | Udev_monitor_enable_receiving m => [m]
  | Udev_monitor_get_fd m => [m]
  | Udev_monitor_unref m => [m]
  | Udev_monitor_receive_device m => [m]
  | Udev_device_get_action d => [d]
  | Udev_device_get_devnode d => [d]
  | Udev_device_get_sysattr_value d a => [d; a]
  | Udev_device_unref d => [d]
  end.

(** Performing a call: run the stub and wrap what it returns. *)
Definition exec (c : call) : M value :=
  match c with
  | Udev_new => p <- udev_new ;; ret (VPtr p)
  | Udev_unref u => udev_unref u ;; ret VVoid
  | Udev_monitor_new_from_netlink u n =>
      p <- udev_monitor_new_from_netlink u n ;; ret (VPtr p)
  | Udev_monitor_filter_add_match_subsystem_devtype m s d =>
      i <- udev_monitor_filter_add_match_subsystem_devtype m s d ;;
      ret (VInt i)
  | Udev_monitor_enable_receiving m =>
      i <- udev_monitor_enable_receiving m ;; ret (VInt i)
  | Udev_monitor_get_fd m => i <- udev_monitor_get_fd m ;; ret (VInt i)
  | Udev_monitor_unref m => udev_monitor_unref m ;; ret VVoid
  | Udev_monitor_receive_device m =>
      p <- udev_monitor_receive_device m ;; ret (VPtr p)
  | Udev_device_get_action d => p <- udev_device_get_action d ;; ret (VPtr p)
  | Udev_device_get_devnode d =>
      p <- udev_device_get_devnode d ;; ret (VPtr p)
  | Udev_device_get_sysattr_value d a =>
      p <- udev_device_get_sysattr_value d a ;; ret (VPtr p)
  | Udev_device_unref d => udev_device_unref d ;; ret VVoid
  end.

(** A history: calls made one after the other, each in the world the
    previous one left. *)
Fixpoint run (cs : list call) : M (list value) :=
  match cs with
  | [] => ret []
  | c :: cs' => v <- exec c ;; vs <- run cs' ;; ret (v :: vs)
  end.

(** The failure value of each return type: a null pointer, the int -1,
    and nothing at all for [void]. *)
Definition sentinel (t : ctype) : value :=
  match t with
  | TPtr => VPtr NULL
  | TInt => VInt (-1)
  | TVoid => VVoid
  end.

(** libudev's convention: an int result is a success when it is
    non-negative and a failure when it is negative; a pointer result is a
    failure when it is null. *)
Definition succeeded (v : value) : bool :=
  match v with
  | VInt i => 0 <=? i
  | VPtr NULL => false
  | VPtr (Ptr _ _) => true
  | VVoid => true
  end.

Definition failed (v : value) : bool := negb (succeeded v).

(** A handle is usable when it points into a live block. *)
Definition valid_handle (p : ptr) (w : world) : bool :=
  match deref p w with Some _ => true | None => false end.

(** A filter is a (subsystem, devtype) pair of C strings. *)
Definition add_filter (mon : ptr) (f : ptr * ptr) : call :=
  Udev_monitor_filter_add_match_subsystem_devtype mon (fst f) (snd f).

(** The protocol of the monitoring layer, read on the results of a
    history: the filters in [before] are added, the monitor is activated,
    then [after] is added.  It holds when every addition made before the
    activation succeeds and the one made after it fails. *)
Definition filter_protocol
    (mon : ptr) (before : list (ptr * ptr)) (after : ptr * ptr)
    (w : world) : Prop :=
  exists (rs : list value) (r_act r_after : value) (w' : world),
    run (map (add_filter mon) before
           ++ [Udev_monitor_enable_receiving mon; add_filter mon after]) w
      = Done (rs ++ [r_act; r_after]) w'
    /\ length rs = length before
    /\ forallb succeeded rs = true
    /\ failed r_after = true.

(** Activation as an exactly-once operation: of two calls on the same
    monitor the first succeeds and the second fails. *)
Definition activates_exactly_once (mon : ptr) (w : world) : Prop :=
  exists (r1 r2 : value) (w' : world),
    run [Udev_monitor_enable_receiving mon;
         Udev_monitor_enable_receiving mon] w = Done [r1; r2] w'
    /\ succeeded r1 = true
    /\ failed r2 = true.

End Api.

Export Api.

(* ===================================================================== *)
(** ** The event reader the stubs stand in for *)
(* ===================================================================== *)

Module Layer.

Inductive action : Type := Added | Removed | Changed | Unknown.

Definition recognised : list (option string) :=
  [Some "add"%string; Some "remove"%string; Some "change"%string].

(** Modelled from the spec: the decoder of the raw action string is not in
    the source.  "add", "remove" and "change" map to [Added], [Removed] and
    [Changed]; every other raw value, the absent one included, maps to
    [Unknown]. *)
Definition decode_action (raw : option string) : action :=
  match raw with
  | Some s =>
      if String.eqb s "add" then Added
      else if String.eqb s "remove" then Removed
      else if String.eqb s "change" then Changed
      else Unknown
  | None => Unknown
  end.

(** Modelled from the spec: an optional string field of an event is absent
    when the native accessor returns a null pointer, and is the string
    pointed to otherwise. *)
Definition load_opt_cstr (p : ptr) : M (option string) :=
  match p with
  | NULL => ret None
  | Ptr _ _ => s <- load_cstr p ;; ret (Some s)
  end.

(** Modelled from the spec: the [action] field of the event read from a
    device record, through [udev_device_get_action]. *)
Definition event_action (dev : ptr) : M action :=
  p <- udev_device_get_action dev ;;
  raw <- load_opt_cstr p ;;
  ret (decode_action raw).

(** What one [read_event] can yield. *)
Inductive read_outcome : Type :=
| NoEvent
| Event (dev : ptr)
| ReadFailed.

(** Modelled from the spec: how one read is classified (section 4.3).  A
    genuine subsystem error makes the read fail with [ReadFailed], whatever
    record came with it; without an error, a null record is the "no event"
    outcome and any other pointer is the one event read. *)
Definition classify (err : bool) (p : ptr) : read_outcome :=
  if err then ReadFailed
  else match p with
       | NULL => NoEvent
       | Ptr _ _ => Event p
       end.

Section Reader.

(** The receive function of the library that is linked in. *)
Variable native : ptr -> M ptr.

(** The C interface returns one pointer, and neither the source nor the
    spec says how the reader tells a subsystem error from an empty read:
    the test is left open.  It is made on the monitor, in the world the
    native call leaves. *)
Variable subsystem_error : ptr -> world -> bool.

Definition check_error (mon : ptr) : M bool :=
  fun w => Done (subsystem_error mon w) w.

(** Modelled from the spec: [read_event] (section 4.3) over a native
    receive function: one native call, then the classification. *)
Definition read_event_over (mon : ptr) : M read_outcome :=
  p <- native mon ;;
  err <- check_error mon ;;
  ret (classify err p).

End Reader.

(** Modelled from the spec: [read_event] in the stub build, over
    [udev_monitor_receive_device]. *)
Definition read_event (subsystem_error : ptr -> world -> bool) (mon : ptr)
  : M read_outcome :=
  read_event_over udev_monitor_receive_device subsystem_error mon.



End Layer.

Export Layer.

(* ===================================================================== *)
(** ** Sample worlds and handles *)
(* ===================================================================== *)

Module Samples.

(** Three names a caller might pass, each in a block of its own, and two
    sixteen-byte objects standing for a context and a monitor. *)
Definition w_names : world :=
  with_cstr 1 "udev"
    (with_cstr 2 "tty"
       (with_cstr 3 "no-such-source"
          (World (<[ 6 := repeat x00 16 ]> (<[ 7 := repeat x00 16 ]> ∅))))).

Definition p_udev : ptr := Ptr 1 0.
Definition p_tty : ptr := Ptr 2 0.
Definition p_bogus : ptr := Ptr 3 0.
Definition ctx0 : ptr := Ptr 6 0.
Definition mon0 : ptr := Ptr 7 0.

End Samples.

Export Samples.

(* ===================================================================== *)
(** ** Callers that chain results into arguments *)
(* ===================================================================== *)

Module Clients.

(** A caller of the interface either stops or makes one call and goes on
    according to what the call returned: a later call may take an earlier
    result as its argument, and the caller may branch on it. *)
Inductive client : Type :=
| Stop
| Call (c : call) (k : value -> client).

(** Running a caller against the stubs; the transcript pairs every call
    made with what it returned. *)
Fixpoint play (p : client) : M (list (call * value)) :=
  match p with
  | Stop => ret []
  | Call c k => v <- exec c ;; t <- play (k v) ;; ret ((c, v) :: t)
  end.

(** The calls a caller makes when every call answers with the failure
    value of its return type. *)
Fixpoint script (p : client) : list call :=
  match p with
  | Stop => []
  | Call c k => c :: script (k (sentinel (ret_type (fn_of c))))
  end.

Definition answered (c : call) : call * value :=
  (c, sentinel (ret_type (fn_of c))).

(** A transcript entry reports no success: the function is void, or what
    it returned is a failure. *)
Definition no_success (cv : call * value) : bool :=
  match ret_type (fn_of (fst cv)) with
  | TVoid => true
  | TPtr | TInt => failed (snd cv)
  end.

(** A transcript entry hands something out: a handle that is usable in
    world [w], or a descriptor that can be polled. *)
Definition hands_out (w : world) (cv : call * value) : bool :=
  match snd cv with
  | VPtr p => valid_handle p w
  | VInt fd => 0 <=? fd
  | VVoid => false
  end.

Definition as_ptr (v : value) : ptr :=
  match v with
  | VPtr p => p
  | VInt _ | VVoid => NULL
  end.

(** A caller that walks through the whole interface without checking any
    result, feeding each handle it gets to the calls that follow. *)
Definition unchecked_session (name subsystem attr : ptr) : client :=
  Call Udev_new (fun u =>
  Call (Udev_monitor_new_from_netlink (as_ptr u) name) (fun m =>
  Call (Udev_monitor_filter_add_match_subsystem_devtype
          (as_ptr m) subsystem NULL) (fun _ =>
  Call (Udev_monitor_enable_receiving (as_ptr m)) (fun _ =>
  Call (Udev_monitor_get_fd (as_ptr m)) (fun _ =>
  Call (Udev_monitor_receive_device (as_ptr m)) (fun d =>
  Call (Udev_device_get_action (as_ptr d)) (fun _ =>
  Call (Udev_device_get_devnode (as_ptr d)) (fun _ =>
  Call (Udev_device_get_sysattr_value (as_ptr d) attr) (fun _ =>
  Call (Udev_device_unref (as_ptr d)) (fun _ =>
  Call (Udev_monitor_unref (as_ptr m)) (fun _ =>
  Call (Udev_unref (as_ptr u)) (fun _ => Stop)))))))))))).

(** A caller that checks the context it asked for and gives up without
    one. *)
Definition checked_session (name : ptr) : client :=
  Call Udev_new (fun u =>
    if succeeded u
    then Call (Udev_monitor_new_from_netlink (as_ptr u) name) (fun m =>
         Call (Udev_monitor_unref (as_ptr m)) (fun _ =>
         Call (Udev_unref (as_ptr u)) (fun _ => Stop)))
    else Stop).

(** A caller in general: a rule that, from the transcript so far, picks the
    next call or stops.  Such a caller may go on for ever. *)
Definition strategy : Type := list (call * value) -> option call.

(** At most [n] steps of a caller that has transcript [t] behind it: the
    transcript reached, and whether the caller has stopped by then. *)
Fixpoint steps (n : nat) (s : strategy) (t : list (call * value))
  : M (list (call * value) * bool) :=
  match n with
  | O => ret (t, match s t with None => true | Some _ => false end)
  | S n' =>
      match s t with
      | None => ret (t, true)
      | Some c => v <- exec c ;; steps n' s (t ++ [(c, v)])
      end
  end.

(** The dispatcher's loop: read from the monitor again and again, and stop
    at the first read that delivers a device record. *)
Definition repoll (mon : ptr) : strategy :=
  fun t =>
    match last t with
    | Some (_, VPtr (Ptr _ _)) => None
    | _ => Some (Udev_monitor_receive_device mon)
    end.

End Clients.

Export Clients.

(* ===================================================================== *)
(** ** Facts about the model *)
(* ===================================================================== *)

Section MonadLaws.
Context {A B : Type}.

Lemma bind_ret_l (a : A) (k : A -> M B) (w : world) :
  bind (ret a) k w = k a w.
Proof. reflexivity. Qed.

Lemma bind_done (m : M A) (k : A -> M B) (a : A) (w w' : world) :
  m w = Done a w' -> bind m k w = k a w'.
Proof. unfold bind; intros ->; reflexivity. Qed.

Lemma bind_fault (m : M A) (k : A -> M B) (w : world) :
  m w = Fault -> bind m k w = Fault.
Proof. unfold bind; intros ->; reflexivity. Qed.
End MonadLaws.

(** The model can fault: a dereference of the null pointer does, in every
    world, and so does any dereference in the world with no live block. *)
Lemma load_byte_null (w : world) : load_byte NULL w = Fault.
Proof. reflexivity. Qed.

Lemma deref_empty_world (p : ptr) : deref p empty_world = None.
Proof. destruct p as [|b ofs]; [reflexivity|]. cbn. rewrite lookup_empty. reflexivity. Qed.

Lemma load_byte_empty_world (p : ptr) : load_byte p empty_world = Fault.
Proof. unfold load_byte. rewrite deref_empty_world. reflexivity. Qed.

Lemma load_cstr_empty_world (p : ptr) : load_cstr p empty_world = Fault.
Proof. unfold load_cstr. rewrite deref_empty_world. reflexivity. Qed.

Lemma load_byte_dangling (b ofs : Z) (w : world) :
  mem w !! b = None -> load_byte (Ptr b ofs) w = Fault.
Proof. intros H. unfold load_byte, deref. rewrite H. reflexivity. Qed.

(** Strings survive a trip through memory, provided they hold no NUL. *)
Lemma until_nul_terminated (bs : list byte) (rest : list byte) :
  nul_free bs = true -> until_nul (bs ++ x00 :: rest) = Some bs.
Proof.
  induction bs as [|b bs IH]; cbn; [reflexivity|].
  intros H. apply andb_prop in H as [Hb Hbs].
  apply negb_true_iff in Hb. rewrite Hb, (IH Hbs). reflexivity.
Qed.

Lemma load_with_cstr (b : Z) (s : string) (w : world) :
  nul_free (list_byte_of_string s) = true ->
  load_cstr (Ptr b 0) (with_cstr b s w) = Done s (with_cstr b s w).
Proof.
  intros Hs. unfold load_cstr, deref, with_cstr; cbn [mem].
  rewrite lookup_insert_eq.
  rewrite length_app, Nat2Z.inj_add; cbn [length].
  replace (0 <=? 0) with true by reflexivity.
  replace (0 <? Z.of_nat (length (list_byte_of_string s)) + Z.of_nat 1)
    with true by (symmetry; apply Z.ltb_lt; lia).
  cbn [andb]. change (Z.to_nat 0) with 0%nat. rewrite drop_0.
  rewrite (until_nul_terminated _ _ Hs), string_of_list_byte_of_string.
  reflexivity.
Qed.

(** Every call completes with the sentinel of its return type, in the world
    it started from; so does every history. *)
Lemma exec_sentinel (c : call) (w : world) :
  exec c w = Done (sentinel (ret_type (fn_of c))) w.
Proof. destruct c; reflexivity. Qed.

Lemma run_sentinels (cs : list call) (w : world) :
  run cs w = Done (map (fun c => sentinel (ret_type (fn_of c))) cs) w.
Proof.
  induction cs as [|c cs IH]; [reflexivity|].
  cbn [run map].
  rewrite (bind_done _ _ _ _ _ (exec_sentinel c w)).
  rewrite (bind_done _ _ _ _ _ IH).
  reflexivity.
Qed.

Lemma run_app (cs1 cs2 : list call) (w : world) :
  run (cs1 ++ cs2) w
  = (vs1 <- run cs1 ;; vs2 <- run cs2 ;; ret (vs1 ++ vs2)) w.
Proof.
  rewrite !run_sentinels.
  rewrite (bind_done _ _ _ _ _ (run_sentinels cs1 w)).
  rewrite (bind_done _ _ _ _ _ (run_sentinels cs2 w)).
  unfold ret. rewrite map_app. reflexivity.
Qed.

Lemma after_history {A : Type} (history : list call) (m : M A) (w : world) :
  (run history ;; m) w = m w.
Proof. unfold bind. rewrite run_sentinels. reflexivity. Qed.

Lemma succeeded_sentinel (t : ctype) :
  succeeded (sentinel t) = match t with TVoid => true | _ => false end.
Proof. destruct t; reflexivity. Qed.

Lemma load_byte_released (b ofs : Z) (w : world) :
  load_byte (Ptr b ofs) (release b w) = Fault.
Proof. apply load_byte_dangling. cbn. apply lookup_delete_eq. Qed.

Lemma valid_handle_null (w : world) : valid_handle NULL w = false.
Proof. reflexivity. Qed.

Lemma failed_repeat (n : nat) : forallb failed (repeat (VInt (-1)) n) = true.
Proof. induction n as [|n IH]; [reflexivity|]. cbn. exact IH. Qed.

(** The sample world really holds the names: the calls below are made with
    arguments a real caller would pass. *)
Example sample_names :
  load_cstr p_udev w_names = Done "udev"%string w_names
  /\ load_cstr p_tty w_names = Done "tty"%string w_names
  /\ load_cstr p_bogus w_names = Done "no-such-source"%string w_names
  /\ valid_handle ctx0 w_names = true
  /\ valid_handle mon0 w_names = true.
Proof. repeat split; vm_compute; reflexivity. Qed.

(* ===================================================================== *)
(** ** The stubs: sentinels, no effect, no fault *)
(* ===================================================================== *)

(** C1: every function of the stub file, at every argument and in every
    world, returns the failure sentinel of its return type (NULL for a
    pointer, -1 for an int, nothing for void) and leaves the world exactly
    as it found it. *)
Theorem stubs_return_sentinels_and_do_nothing (w : world) :
  udev_new w = Done NULL w
  /\ (forall u, udev_unref u w = Done tt w)
  /\ (forall u n, udev_monitor_new_from_netlink u n w = Done NULL w)
  /\ (forall m s d,
        udev_monitor_filter_add_match_subsystem_devtype m s d w
        = Done (-1) w)
  /\ (forall m, udev_monitor_enable_receiving m w = Done (-1) w)
  /\ (forall m, udev_monitor_get_fd m w = Done (-1) w)
  /\ (forall m, udev_monitor_unref m w = Done tt w)
  /\ (forall m, udev_monitor_receive_device m w = Done NULL w)
  /\ (forall d, udev_device_get_action d w = Done NULL w)
  /\ (forall d, udev_device_get_devnode d w = Done NULL w)
  /\ (forall d a, udev_device_get_sysattr_value d a w = Done NULL w)
  /\ (forall d, udev_device_unref d w = Done tt w)
  /\ (forall c, exec c w = Done (sentinel (ret_type (fn_of c))) w)
  /\ int_range (-1) = true.
Proof.
  repeat split; try reflexivity.
  intros c. apply exec_sentinel.
Qed.

(** C2: opening a context fails on every call.  Whatever calls were made
    before, [udev_new] returns NULL, which is a usable handle in no world,
    and changes nothing. *)
Theorem udev_new_always_null (history : list call) (w : world) :
  exists p : ptr,
    (run history ;; udev_new) w = Done p w
    /\ p = NULL
    /\ valid_handle p w = false
    /\ failed (VPtr p) = true.
Proof.
  exists NULL. rewrite after_history. repeat split.
Qed.

(** C8: creating a monitor fails the same way for every context and every
    source name: whatever calls were made before, whatever the context
    handle and whatever string the name points to, the result is NULL and
    the world is unchanged. *)
Theorem monitor_creation_fails_uniformly
    (history : list call) (ctx name : ptr) (w : world) :
  (run history ;; udev_monitor_new_from_netlink ctx name) w = Done NULL w
  /\ (forall (b : Z) (s : string),
        udev_monitor_new_from_netlink ctx (Ptr b 0) (with_cstr b s w)
        = Done NULL (with_cstr b s w))
  /\ udev_monitor_new_from_netlink ctx0 p_udev w_names = Done NULL w_names
  /\ udev_monitor_new_from_netlink ctx0 p_bogus w_names = Done NULL w_names
  /\ failed (VPtr NULL) = true.
Proof.
  rewrite after_history. repeat split.
Qed.

(** C9: the result of a call depends on nothing but the function called.
    Two calls of the same function, with any two argument lists and in any
    two worlds, both complete, return equal values, and each leaves its own
    world unchanged: no pointer, name, subsystem or attribute string the
    caller supplies reaches an output. *)
Theorem results_independent_of_arguments (c1 c2 : call) (w1 w2 : world) :
  fn_of c1 = fn_of c2 ->
  result_of (exec c1 w1) = result_of (exec c2 w2)
  /\ result_of (exec c1 w1) = Some (sentinel (ret_type (fn_of c1)))
  /\ state_of (exec c1 w1) = Some w1
  /\ state_of (exec c2 w2) = Some w2.
Proof.
  intros Hfn. rewrite !exec_sentinel, Hfn. cbn. repeat split.
Qed.

Lemma results_independent_of_arguments_witness :
  fn_of (Udev_monitor_new_from_netlink NULL NULL)
  = fn_of (Udev_monitor_new_from_netlink ctx0 p_udev)
  /\ args_of (Udev_monitor_new_from_netlink NULL NULL)
     <> args_of (Udev_monitor_new_from_netlink ctx0 p_udev)
  /\ result_of (exec (Udev_monitor_new_from_netlink NULL NULL) empty_world)
     = result_of (exec (Udev_monitor_new_from_netlink ctx0 p_udev) w_names).
Proof.
  split; [reflexivity|]. split; [discriminate|].
  apply (results_independent_of_arguments
           (Udev_monitor_new_from_netlink NULL NULL)
           (Udev_monitor_new_from_netlink ctx0 p_udev)
           empty_world w_names).
  reflexivity.
Defined.

(** C10: every function is total and safe at every argument.  No call and
    no history of calls faults, in any world: not in the world without a
    single live block, where any dereference would fault, and not when the
    handle is NULL or has been released.  The three unref functions, given
    NULL, a released handle, or the same handle twice, complete and change
    nothing. *)
Theorem stubs_total_and_safe :
  (forall (c : call) (w : world), faults (exec c w) = false)
  /\ (forall (cs : list call) (w : world), faults (run cs w) = false)
  /\ (forall c : call,
        exec c empty_world
        = Done (sentinel (ret_type (fn_of c))) empty_world)
  /\ (forall w : world,
        udev_unref NULL w = Done tt w
        /\ udev_monitor_unref NULL w = Done tt w
        /\ udev_device_unref NULL w = Done tt w)
  /\ (forall (b ofs : Z) (w : world),
        udev_unref (Ptr b ofs) (release b w) = Done tt (release b w)
        /\ udev_monitor_unref (Ptr b ofs) (release b w)
           = Done tt (release b w)
        /\ udev_device_unref (Ptr b ofs) (release b w)
           = Done tt (release b w))
  /\ (forall (p : ptr) (w : world),
        run [Udev_unref p; Udev_unref p] w = Done [VVoid; VVoid] w
        /\ run [Udev_monitor_unref p; Udev_monitor_unref p] w
           = Done [VVoid; VVoid] w
        /\ run [Udev_device_unref p; Udev_device_unref p] w
           = Done [VVoid; VVoid] w).
Proof.
  split; [intros c w; rewrite exec_sentinel; reflexivity|].
  split; [intros cs w; rewrite run_sentinels; reflexivity|].
  split; [intros c; apply exec_sentinel|].
  repeat split.
Qed.

(* ===================================================================== *)
(** ** Filters and activation *)
(* ===================================================================== *)

(** C3, as stated, fails: one filter ("tty", no device type) added to a
    live monitor before any activation is already refused with -1, so the
    additions made before the activation do not succeed. *)
Lemma filter_added_before_activation_fails :
  ~ filter_protocol mon0 [(p_tty, NULL)] (p_tty, NULL) w_names.
Proof.
  intros (rs & r_act & r_after & w' & Hrun & Hlen & Hok & _).
  rewrite run_sentinels in Hrun. cbn in Hrun, Hlen.
  destruct rs as [|r [|r' rs]]; try discriminate Hlen.
  cbn in Hrun. injection Hrun as <- _ _ _.
  cbn in Hok. discriminate Hok.
Qed.

(** C3, amended: in the sequence "add filters, activate, add one more",
    every addition returns -1, those made before the activation as well as
    the one made after it, and the world is unchanged.  The stub has one
    failure value, -1, and no code of its own for an invalid filter. *)
Theorem filter_additions_always_fail
    (mon : ptr) (before : list (ptr * ptr)) (after : ptr * ptr) (w : world) :
  run (map (add_filter mon) before
         ++ [Udev_monitor_enable_receiving mon; add_filter mon after]) w
  = Done (repeat (VInt (-1)) (length before) ++ [VInt (-1); VInt (-1)]) w
  /\ forallb failed (repeat (VInt (-1)) (length before)) = true
  /\ failed (VInt (-1)) = true.
Proof.
  split; [|split; [apply failed_repeat | reflexivity]].
  rewrite run_sentinels, map_app. f_equal. f_equal.
  induction before as [|f before IH]; [reflexivity|].
  cbn [map length repeat]. rewrite IH. reflexivity.
Qed.

(** C4, as stated, fails: the first activation of a live monitor returns
    -1, so it does not begin receiving. *)
Lemma first_activation_fails :
  ~ activates_exactly_once mon0 w_names.
Proof.
  intros (r1 & r2 & w' & Hrun & Hok & _).
  rewrite run_sentinels in Hrun. cbn in Hrun.
  injection Hrun as <- _ _. cbn in Hok. discriminate Hok.
Qed.

(** C4, amended: every activation fails.  Whatever calls were made before,
    any number of calls of [udev_monitor_enable_receiving] on a monitor all
    return -1 and leave the world unchanged: the first arms nothing and no
    later one re-arms anything.  The stub has no code of its own for an
    activation that comes twice. *)
Theorem activation_always_fails
    (history : list call) (mon : ptr) (n : nat) (w : world) :
  (run history ;; run (repeat (Udev_monitor_enable_receiving mon) n)) w
  = Done (repeat (VInt (-1)) n) w
  /\ forallb failed (repeat (VInt (-1)) n) = true
  /\ (run history ;; udev_monitor_enable_receiving mon) w = Done (-1) w.
Proof.
  rewrite !after_history.
  split; [|split; [apply failed_repeat | reflexivity]].
  rewrite run_sentinels. f_equal.
  induction n as [|n IH]; [reflexivity|].
  cbn [map repeat]. rewrite IH. reflexivity.
Qed.

(* ===================================================================== *)
(** ** Reading events *)
(* ===================================================================== *)

(** C5: decoding an action never fails.  Every raw value other than "add",
    "remove" and "change" decodes to [Unknown]; the stub reports a NULL
    action for every device, in every world and after any calls, so the
    action of an event read through it is [Unknown]. *)
Theorem action_decoding_total (raw : option string) :
  ~ In raw recognised ->
  decode_action raw = Unknown
  /\ (forall (history : list call) (dev : ptr) (w : world),
        (run history ;; udev_device_get_action dev) w = Done NULL w
        /\ (run history ;; event_action dev) w = Done Unknown w).
Proof.
  intros Hraw. split.
  - destruct raw as [s|]; [|reflexivity]. unfold decode_action.
    destruct (String.eqb_spec s "add") as [->|_];
      [exfalso; apply Hraw; cbn; auto|].
    destruct (String.eqb_spec s "remove") as [->|_];
      [exfalso; apply Hraw; cbn; auto|].
    destruct (String.eqb_spec s "change") as [->|_];
      [exfalso; apply Hraw; cbn; auto|].
    reflexivity.
  - intros history dev w. rewrite !after_history. split; reflexivity.
Qed.

Lemma action_decoding_total_witness :
  ~ In (Some "bind"%string) recognised
  /\ decode_action (Some "bind"%string) = Unknown.
Proof.
  assert (H : ~ In (Some "bind"%string) recognised).
  { cbn. intros [H|[H|[H|[]]]]; discriminate H. }
  split; [exact H|].
  exact (proj1 (action_decoding_total (Some "bind"%string) H)).
Defined.

(** The decoder does tell the three known actions apart. *)
Example decode_known_actions :
  decode_action (Some "add"%string) = Added
  /\ decode_action (Some "remove"%string) = Removed
  /\ decode_action (Some "change"%string) = Changed
  /\ decode_action (Some ""%string) = Unknown
  /\ decode_action None = Unknown.
Proof. repeat split. Qed.

(** A pointer to an empty string is not the null pointer: it reads as the
    empty string, where the null pointer reads as nothing. *)
Example empty_string_is_not_absent :
  load_cstr (Ptr 1 0) (with_cstr 1 "" empty_world)
  = Done ""%string (with_cstr 1 "" empty_world)
  /\ load_opt_cstr (Ptr 1 0) (with_cstr 1 "" empty_world)
     = Done (Some ""%string) (with_cstr 1 "" empty_world)
  /\ load_opt_cstr NULL (with_cstr 1 "" empty_world)
     = Done None (with_cstr 1 "" empty_world).
Proof. repeat split; vm_compute; reflexivity. Qed.

(** C6: the device node is absent, not empty.  For every device, in every
    world and after any calls, [udev_device_get_devnode] returns NULL and
    changes nothing; NULL designates no string at all, the empty one
    included, in that world or any other. *)
Theorem devnode_absent_not_empty
    (history : list call) (dev : ptr) (w : world) :
  exists p : ptr,
    (run history ;; udev_device_get_devnode dev) w = Done p w
    /\ p = NULL
    /\ (forall (s : string) (w1 w2 : world), load_cstr p w1 <> Done s w2)
    /\ load_cstr p w <> Done ""%string w.
Proof.
  exists NULL. rewrite after_history.
  repeat split; discriminate.
Qed.

(** The reader has all three outcomes: over a library that delivers a
    record it yields that one event, or fails when the subsystem reports an
    error; over the stub it yields no event, or fails likewise. *)
Example read_event_outcomes :
  read_event_over (fun _ => ret (Ptr 9 0)) (fun _ _ => false) mon0 w_names
  = Done (Event (Ptr 9 0)) w_names
  /\ read_event_over (fun _ => ret (Ptr 9 0)) (fun _ _ => true) mon0 w_names
     = Done ReadFailed w_names
  /\ read_event (fun _ _ => false) mon0 w_names = Done NoEvent w_names
  /\ read_event (fun _ _ => true) mon0 w_names = Done ReadFailed w_names.
Proof. repeat split. Qed.


(* ===================================================================== *)
(** ** Beyond single calls: callers, handles, descriptors *)
(* ===================================================================== *)

Lemma play_sentinels (p : client) (w : world) :
  play p w = Done (map answered (script p)) w.
Proof.
  induction p as [|c k IH]; [reflexivity|].
  cbn [play script map].
  rewrite (bind_done _ _ _ _ _ (exec_sentinel c w)).
  rewrite (bind_done _ _ _ _ _ (IH (sentinel (ret_type (fn_of c))))).
  reflexivity.
Qed.

Lemma no_success_answered (c : call) : no_success (answered c) = true.
Proof. destruct c; reflexivity. Qed.

Lemma hands_out_answered (w : world) (c : call) :
  hands_out w (answered c) = false.
Proof. destruct c; reflexivity. Qed.

Lemma deref_of_load_byte (p : ptr) (b : byte) (w w' : world) :
  load_byte p w = Done b w' -> valid_handle p w = true /\ w' = w.
Proof.
  unfold load_byte, valid_handle.
  destruct (deref p w) as [[|b' bs]|]; try discriminate.
  intros H. injection H as _ <-. split; reflexivity.
Qed.

(** The two sample callers: the one that checks nothing makes all twelve
    calls and gets twelve failure values; the one that checks its context
    stops after the first call. *)
Example sample_sessions :
  result_of (play (unchecked_session p_udev p_tty p_bogus) w_names)
  = Some (map answered
            [ Udev_new; Udev_monitor_new_from_netlink NULL p_udev;
              Udev_monitor_filter_add_match_subsystem_devtype NULL p_tty NULL;
              Udev_monitor_enable_receiving NULL; Udev_monitor_get_fd NULL;
              Udev_monitor_receive_device NULL; Udev_device_get_action NULL;
              Udev_device_get_devnode NULL;
              Udev_device_get_sysattr_value NULL p_bogus;
              Udev_device_unref NULL; Udev_monitor_unref NULL;
              Udev_unref NULL ])
  /\ result_of (play (checked_session p_udev) w_names)
     = Some [(Udev_new, VPtr NULL)].
Proof. split; reflexivity. Qed.

Lemma steps_sentinels (n : nat) (s : strategy) (t0 : list (call * value))
    (w : world) :
  exists (cs : list call) (stopped : bool),
    steps n s t0 w = Done (t0 ++ map answered cs, stopped) w
    /\ (if stopped then (length cs <= n)%nat else length cs = n)
    /\ stopped = match s (t0 ++ map answered cs) with
                 | None => true
                 | Some _ => false
                 end.
Proof.
  revert t0. induction n as [|n IH]; intros t0.
  - exists [], (match s t0 with None => true | Some _ => false end).
    cbn [steps map length]. rewrite app_nil_r.
    split; [reflexivity|]. split; [|reflexivity].
    destruct (s t0); cbn; lia.
  - cbn [steps]. destruct (s t0) as [c|] eqn:Hs.
    + destruct (IH (t0 ++ [(c, sentinel (ret_type (fn_of c)))]))
        as (cs & stopped & Hrun & Hlen & Hstop).
      exists (c :: cs), stopped.
      rewrite (bind_done _ _ _ _ _ (exec_sentinel c w)), Hrun.
      cbn [map length]. unfold answered at 2.
      rewrite <- app_assoc. cbn [app].
      split; [reflexivity|]. split.
      * destruct stopped; lia.
      * rewrite <- app_assoc in Hstop. exact Hstop.
    + exists [], true. cbn [map length]. rewrite app_nil_r, Hs.
      split; [reflexivity|]. split; [lia | reflexivity].
Qed.

Lemma repoll_goes_on (mon : ptr) (t : list (call * value)) (c : call) :
  repoll mon (t ++ [(c, VPtr NULL)]) = Some (Udev_monitor_receive_device mon).
Proof. unfold repoll. rewrite last_snoc. reflexivity. Qed.

Lemma steps_repoll (mon : ptr) (n : nat) (t0 : list (call * value))
    (w : world) :
  repoll mon t0 = Some (Udev_monitor_receive_device mon) ->
  steps n (repoll mon) t0 w
  = Done (t0 ++ repeat (Udev_monitor_receive_device mon, VPtr NULL) n, false)
      w.
Proof.
  revert t0. induction n as [|n IH]; intros t0 Hgo.
  - cbn [steps repeat]. rewrite Hgo, app_nil_r. reflexivity.
  - cbn [steps repeat]. rewrite Hgo.
    rewrite (bind_done _ _ _ _ _
               (exec_sentinel (Udev_monitor_receive_device mon) w)).
    cbn [fn_of ret_type sentinel].
    rewrite (IH _ (repoll_goes_on mon t0 _)), <- app_assoc.
    reflexivity.
Qed.

(** X1: no caller can make the stubs fault or change memory, and none gets
    anything but failure values.  A caller is any rule that picks its next
    call from the transcript so far, so it may chain results into
    arguments, branch on them, and loop without bound.  After any number of
    steps its run has not faulted, memory is as it was, and every call made
    so far was answered with the failure value of its return type; the
    caller has made that many calls unless it stopped of its own accord.
    In particular the loop that re-polls [udev_monitor_receive_device]
    until a device arrives never stops: after [n] steps it has made [n]
    reads, all NULL, and is still going. *)
Theorem no_caller_gets_past_the_sentinels
    (s : strategy) (mon : ptr) (n : nat) (w : world) :
  (exists (cs : list call) (stopped : bool),
     steps n s [] w = Done (map answered cs, stopped) w
     /\ (if stopped then (length cs <= n)%nat else length cs = n)
     /\ stopped = match s (map answered cs) with
                  | None => true
                  | Some _ => false
                  end)
  /\ steps n (repoll mon) [] w
     = Done (repeat (Udev_monitor_receive_device mon, VPtr NULL) n, false) w.
Proof.
  split.
  - destruct (steps_sentinels n s [] w) as (cs & stopped & H).
    exists cs, stopped. exact H.
  - apply (steps_repoll mon n [] w). reflexivity.
Qed.

(** X2: the stubs never report a success and never hand anything out.  In
    the transcript of any caller, every result of a non-void function is a
    failure, no pointer returned is a usable handle in any world, and no int
    returned is a descriptor that can be polled. *)
Theorem nothing_is_ever_handed_out (p : client) (w : world) :
  exists t : list (call * value),
    play p w = Done t w
    /\ forallb no_success t = true
    /\ (forall w' : world, existsb (hands_out w') t = false).
Proof.
  exists (map answered (script p)). split; [apply play_sentinels|].
  split.
  - induction (script p) as [|c cs IH]; [reflexivity|].
    cbn [map forallb]. rewrite no_success_answered. exact IH.
  - intros w'. induction (script p) as [|c cs IH]; [reflexivity|].
    cbn [map existsb]. rewrite hands_out_answered. exact IH.
Qed.

(** X3: the unref functions release nothing.  A byte that could be read
    through a handle before the handle is passed to [udev_unref],
    [udev_monitor_unref] or [udev_device_unref], after any calls and any
    number of times, is read through it afterwards with the same value: in
    the stub build a use after unref is not a use after free. *)
Theorem unref_does_not_release
    (history : list call) (p : ptr) (b : byte) (w : world) :
  load_byte p w = Done b w ->
  (run history ;; udev_unref p ;; load_byte p) w = Done b w
  /\ (run history ;; udev_monitor_unref p ;; load_byte p) w = Done b w
  /\ (run history ;; udev_device_unref p ;; load_byte p) w = Done b w
  /\ (forall n : nat,
        (run (repeat (Udev_unref p) n) ;; load_byte p) w = Done b w)
  /\ valid_handle p w = true.
Proof.
  intros H. rewrite !after_history.
  repeat split; try exact H.
  - intros n. rewrite after_history. exact H.
  - apply (deref_of_load_byte p b w w H).
Qed.

Lemma unref_does_not_release_witness :
  load_byte ctx0 w_names = Done x00 w_names
  /\ (run [Udev_new] ;; udev_unref ctx0 ;; load_byte ctx0) w_names
     = Done x00 w_names.
Proof.
  assert (H : load_byte ctx0 w_names = Done x00 w_names)
    by (vm_compute; reflexivity).
  split; [exact H|].
  exact (proj1 (unref_does_not_release [Udev_new] ctx0 x00 w_names H)).
Defined.

(** X4: a monitor never has a descriptor.  After any calls, and whether or
    not an activation was attempted just before, [udev_monitor_get_fd]
    returns -1 for every monitor and changes nothing: the value is an int,
    it is negative, and so it is no descriptor a caller could poll. *)
Theorem descriptor_never_available
    (history : list call) (mon : ptr) (w : world) :
  exists fd : Z,
    (run history ;; udev_monitor_get_fd mon) w = Done fd w
    /\ (run history ;; udev_monitor_enable_receiving mon ;;
        udev_monitor_get_fd mon) w = Done fd w
    /\ fd = -1
    /\ (0 <=? fd) = false
    /\ int_range fd = true.
Proof.
  exists (-1). rewrite !after_history. repeat split.
Qed.

(** X5: what a history returns depends on the sequence of functions called
    and on nothing else.  Two histories that call the same functions in the
    same order, with any arguments and in any two worlds, both complete,
    return the same list of results, one per call, and each leaves its own
    world unchanged. *)
Theorem history_results_depend_on_names_only
    (cs1 cs2 : list call) (w1 w2 : world) :
  map fn_of cs1 = map fn_of cs2 ->
  result_of (run cs1 w1) = result_of (run cs2 w2)
  /\ (exists vs : list value,
        run cs1 w1 = Done vs w1 /\ length vs = length cs1)
  /\ state_of (run cs2 w2) = Some w2.
Proof.
  intros Hfn. rewrite !run_sentinels. cbn. split; [|split].
  - f_equal.
    rewrite <- (map_map fn_of (fun f => sentinel (ret_type f)) cs1).
    rewrite <- (map_map fn_of (fun f => sentinel (ret_type f)) cs2).
    rewrite Hfn. reflexivity.
  - eexists. split; [reflexivity|]. apply length_map.
  - reflexivity.
Qed.

Lemma history_results_depend_on_names_only_witness :
  map fn_of [Udev_new; Udev_monitor_new_from_netlink NULL NULL;
             Udev_unref NULL]
  = map fn_of [Udev_new; Udev_monitor_new_from_netlink ctx0 p_udev;
               Udev_unref ctx0]
  /\ result_of (run [Udev_new; Udev_monitor_new_from_netlink NULL NULL;
                     Udev_unref NULL] empty_world)
     = result_of (run [Udev_new; Udev_monitor_new_from_netlink ctx0 p_udev;
                       Udev_unref ctx0] w_names).
Proof.
  split; [reflexivity|].
  exact (proj1 (history_results_depend_on_names_only
                  [Udev_new; Udev_monitor_new_from_netlink NULL NULL;
                   Udev_unref NULL]
                  [Udev_new; Udev_monitor_new_from_netlink ctx0 p_udev;
                   Udev_unref ctx0]
                  empty_world w_names eq_refl)).
Defined.

(** X6: the strings a caller passes are left intact.  A name, subsystem,
    device type or attribute string without an embedded NUL, stored in a
    block of its own, reads back unchanged after any caller has run against
    the stubs, whatever calls that caller made with a pointer to it. *)
Theorem caller_strings_left_intact
    (p : Z -> client) (b : Z) (s : string) (w : world) :
  nul_free (list_byte_of_string s) = true ->
  (play (p b) ;; load_cstr (Ptr b 0)) (with_cstr b s w)
  = Done s (with_cstr b s w).
Proof.
  intros Hs. unfold bind. rewrite play_sentinels.
  apply load_with_cstr. exact Hs.
Qed.

Lemma caller_strings_left_intact_witness :
  nul_free (list_byte_of_string "udev") = true
  /\ (play (unchecked_session (Ptr 1 0) (Ptr 1 0) (Ptr 1 0)) ;;
      load_cstr (Ptr 1 0)) (with_cstr 1 "udev" empty_world)
     = Done "udev"%string (with_cstr 1 "udev" empty_world).
Proof.
  split; [reflexivity|].
  exact (caller_strings_left_intact
           (fun b => unchecked_session (Ptr b 0) (Ptr b 0) (Ptr b 0))
           1 "udev" empty_world eq_refl).
Defined.
